(** * Cyclical figurate numbers (Project Euler 61): a model of [main.py]

    The development follows the source file top-down:
    - [PyNum]: the Python numeric operations the program relies on
      (binary64 floats, [math.ceil], [math.floor], [math.sqrt], [round],
      [str] of an integer and string slices);
    - the module constants and the two quadratic-bound helpers;
    - the generator loop of [main] that fills the prefix buckets;
    - the recursive search [search_seqs] over the shared mutable state;
    - [main] and the [__main__] block with its printed lines. *)

From Stdlib Require Import ZArith QArith Lia String Ascii DecimalString.
From Stdlib Require Import PrimFloat FloatOps SpecFloat.
From stdpp Require Import gmap strings list sorting.

Local Open Scope Z_scope.

(** ** Exceptions and results *)

Inductive exn :=
| ValueError | ZeroDivisionError | OverflowError
| KeyError | IndexError | TypeError
| AssertionError | RecursionError.

Inductive result (A : Type) :=
| Ok (a : A)
| Raise (e : exn).
Arguments Ok {A} a.
Arguments Raise {A} e.

Definition rbind {A B} (r : result A) (k : A -> result B) : result B :=
  match r with
  | Ok a => k a
  | Raise e => Raise e
  end.

Notation "'let*' x := c 'in' k" := (rbind c (fun x => k))
  (at level 10, x pattern, c at level 100, k at level 200).

(** ** Python numbers and strings *)

Module PyNum.

(** [int -> float] conversion used by mixed arithmetic: correctly
    rounded to binary64 (exact below 2^53). *)
Definition float_of_int (z : Z) : float :=
  SF2Prim (binary_normalize prec emax z 0 false).

(** Integer part and remainder of a finite float [±m·2^e]:
    [(negative, q, r, d)] with [m·2^e = q + r/d], [0 <= r < d]. *)
Definition decompose (x : float) : result (bool * Z * Z * Z) :=
  match Prim2SF x with
  | S754_zero s => Ok (s, 0, 0, 1)
  | S754_finite s m e =>
      if 0 <=? e then Ok (s, Z.pos m * 2 ^ e, 0, 1)
      else Ok (s, Z.pos m / 2 ^ (- e), Z.pos m mod 2 ^ (- e), 2 ^ (- e))
  | S754_infinity _ => Raise OverflowError
  | S754_nan => Raise ValueError
  end.

(** [math.floor] on a float. *)
Definition floor (x : float) : result Z :=
  match decompose x with
  | Ok (s, q, r, _) => Ok (if s then (if r =? 0 then - q else - q - 1) else q)
  | Raise e => Raise e
  end.

(** [math.ceil] on a float. *)
Definition ceil (x : float) : result Z :=
  match decompose x with
  | Ok (s, q, r, _) => Ok (if s then - q else (if r =? 0 then q else q + 1))
  | Raise e => Raise e
  end.

(** [round(x)] on a float, no digits: nearest integer, ties to even. *)
Definition round (x : float) : result Z :=
  match decompose x with
  | Ok (s, q, r, d) =>
      let up := (d <? 2 * r) || ((d =? 2 * r) && Z.odd q) in
      let m := if up then q + 1 else q in
      Ok (if s then - m else m)
  | Raise e => Raise e
  end.

(** [math.sqrt]: a negative argument is a domain error. *)
Definition sqrt (x : float) : result float :=
  if (x <? 0)%float then Raise ValueError else Ok (PrimFloat.sqrt x).

(** Float true division. *)
Definition truediv (x y : float) : result float :=
  if (y =? 0)%float then Raise ZeroDivisionError else Ok (x / y)%float.

(** [x ** 2] on a float: the C library [pow], which is exact whenever
    the square is representable; modelled as the rounded product. *)
Definition pow2 (x : float) : float := (x * x)%float.

(** [str(z)] for an integer. *)
Definition str (z : Z) : string := NilZero.string_of_int (Z.to_int z).

(** [s[:n]] and [s[n:]] for a non-negative [n]. *)
Fixpoint slice_to (n : nat) (s : string) : string :=
  match n, s with
  | S n', String c s' => String c (slice_to n' s')
  | _, _ => EmptyString
  end.

Fixpoint slice_from (n : nat) (s : string) : string :=
  match n, s with
  | S n', String _ s' => slice_from n' s'
  | _, _ => s
  end.

(** Right-aligned decimal in a field of width [w] ([{:wd}]). *)
Fixpoint spaces (n : nat) : string :=
  match n with
  | O => EmptyString
  | S n' => String " " (spaces n')
  end.

Definition format_d (w : nat) (z : Z) : string :=
  let s := str z in
  (spaces (w - String.length s) ++ s)%string.

(** The exact rational denoted by a finite float. *)
Definition exact (x : float) : Q :=
  match Prim2SF x with
  | S754_finite s m e =>
      let v := (inject_Z (Z.pos m) * Qpower (2 # 1) e)%Q in
      if s then Qopp v else v
  | _ => 0%Q
  end.

End PyNum.

(** ** Module constants *)

Definition FigurateNumber : Type := Z * Z * Z.

Definition fn_value (c : FigurateNumber) : Z := c.1.1.
Definition fn_type (c : FigurateNumber) : Z := c.1.2.
Definition fn_index (c : FigurateNumber) : Z := c.2.

Definition FIGURATE_LABELS : list (Z * string) :=
  [ (3, "triangular"); (4, "square"); (5, "pentagonal");
    (6, "hexagonal"); (7, "heptagonal"); (8, "octagonal") ]%string.

Definition FIGURATE_QUADRATIC_PARAMETERS : list (Z * (float * float)) :=
  [ (3, (0.5,  0.5)%float); (4, (1.0,  0.0)%float); (5, (1.5, -0.5)%float);
    (6, (2.0, -1.0)%float); (7, (2.5, -1.5)%float); (8, (3.0, -2.0)%float) ].

(** The formulae of the header comment, [P[t,n]]. *)
Definition P (t n : Z) : Z :=
  match t with
  | 3 => n * (n + 1) / 2
  | 4 => n * n
  | 5 => n * (3 * n - 1) / 2
  | 6 => n * (2 * n - 1)
  | 7 => n * (5 * n - 3) / 2
  | 8 => n * (3 * n - 2)
  | _ => 0
  end.

(** ** The quadratic-bound helpers *)

(** The arguments are typed as [main] passes them: float coefficients
    and an integer constant, so the three type assertions hold. *)
Definition quadratic_root (a b : float) (c : Z) : result float :=
  let disc := (PyNum.pow2 b - PyNum.float_of_int 4 * a * PyNum.float_of_int c)%float in
  let* r := PyNum.sqrt disc in
  PyNum.truediv (- b + r)%float (PyNum.float_of_int 2 * a)%float.

Definition quadratic_lower_limit (a b : float) (c : Z) : result Z :=
  let* x := quadratic_root a b c in
  PyNum.ceil x.

Definition quadratic_upper_limit (a b : float) (c : Z) : result Z :=
  let* x := quadratic_root a b c in
  let* f := PyNum.floor x in
  Ok (f + 1).

(** ** The generator loop of [main] *)

Notation Bucket := (gset FigurateNumber).
Notation PrefixDict := (gmap string (gset FigurateNumber)).
Notation BucketIndex := (gmap Z (gmap string (gset FigurateNumber))).

(** [d[key]] on a [defaultdict(lambda: set())]: a missing key is
    inserted with an empty set. *)
Definition defaultdict_getitem (d : PrefixDict) (key : string)
  : Bucket * PrefixDict :=
  match d !! key with
  | Some s => (s, d)
  | None => (∅, <[key := ∅]> d)
  end.

Definition x_lower_bound : Z := 10 ^ 3.
Definition x_upper_bound : Z := 10 ^ 4.

(** [a * n ** 2 + b * n]: the integer operands are converted to float. *)
Definition figurate_float (a b : float) (n : Z) : float :=
  (a * PyNum.float_of_int (n ^ 2) + b * PyNum.float_of_int n)%float.

(** [round(a * n ** 2 + b * n)] *)
Definition figurate_value (a b : float) (n : Z) : result Z :=
  PyNum.round (figurate_float a b n).

(** One pass of the inner loop body (lines 143-144). *)
Definition add_number (m : Z) (a b : float) (d : PrefixDict) (n : Z)
  : result PrefixDict :=
  let* x := figurate_value a b n in
  let key := PyNum.slice_to 2 (PyNum.str x) in
  let '(s, d') := defaultdict_getitem d key in
  Ok (<[key := s ∪ {[ (x, m, n) ]}]> d').

Fixpoint for_n (m : Z) (a b : float) (ns : list Z) (d : PrefixDict)
  : result PrefixDict :=
  match ns with
  | [] => Ok d
  | n :: ns' => let* d' := add_number m a b d n in for_n m a b ns' d'
  end.

(** [range(lo, hi)] *)
Definition range (lo hi : Z) : list Z := seqZ lo (hi - lo).

Definition generate_type (m : Z) (a b : float) : result PrefixDict :=
  let* n_min := quadratic_lower_limit a b (- x_lower_bound) in
  let* n_max := quadratic_upper_limit a b (- x_upper_bound) in
  for_n m a b (range n_min n_max) ∅.

Fixpoint for_m (params : list (Z * (float * float))) (fns : BucketIndex)
  : result BucketIndex :=
  match params with
  | [] => Ok fns
  | (m, (a, b)) :: rest =>
      let* d := generate_type m a b in
      for_m rest (<[m := d]> fns)
  end.

Definition generate : result BucketIndex :=
  for_m FIGURATE_QUADRATIC_PARAMETERS ∅.

(** ** The search state shared by [main] and [search_seqs]

    [curr_seq], [remaining_polygon_types] and [figurate_numbers] are the
    three objects the nested function closes over; all three are mutated
    in place.  [history] is an auxiliary observation log (not program
    data): every statement of [search_seqs] that changes [curr_seq] or
    [remaining_polygon_types], and every entry into [search_seqs],
    records where it is and what the two objects hold at that moment. *)

Inductive Point := AtEntry | AfterDiscard | AfterAppend | AfterPop | AfterAdd.

Definition Snapshot : Type := Point * list FigurateNumber * gset Z.

Record State := mkState {
  curr_seq : list FigurateNumber;
  remaining_polygon_types : gset Z;
  figurate_numbers : BucketIndex;
  history : list Snapshot;
}.

Definition observe (p : Point) (st : State) : State :=
  mkState (curr_seq st) (remaining_polygon_types st) (figurate_numbers st)
          ((p, curr_seq st, remaining_polygon_types st) :: history st).

Definition set_curr_seq (l : list FigurateNumber) (st : State) : State :=
  mkState l (remaining_polygon_types st) (figurate_numbers st) (history st).

Definition set_remaining (r : gset Z) (st : State) : State :=
  mkState (curr_seq st) r (figurate_numbers st) (history st).

Definition set_figurate_numbers (f : BucketIndex) (st : State) : State :=
  mkState (curr_seq st) (remaining_polygon_types st) f (history st).

(** [str(c[0])[:2]] and [str(c[0])[2:]] *)
Definition first2 (c : FigurateNumber) : string :=
  PyNum.slice_to 2 (PyNum.str (fn_value c)).
Definition last2 (c : FigurateNumber) : string :=
  PyNum.slice_from 2 (PyNum.str (fn_value c)).

(** [l[-1]] and [l[0]] *)
Definition list_last {A} (l : list A) : result A :=
  match last l with Some x => Ok x | None => Raise IndexError end.
Definition list_first {A} (l : list A) : result A :=
  match head l with Some x => Ok x | None => Raise IndexError end.

(** [l.pop()] *)
Definition list_pop {A} (l : list A) : result (list A) :=
  match l with [] => Raise IndexError | _ => Ok (removelast l) end.

(** [d[k]] on a plain dict *)
Definition dict_getitem {K} `{Countable K} {V} (d : gmap K V) (k : K) : result V :=
  match d !! k with Some v => Ok v | None => Raise KeyError end.

(** [d[k]] on a dict literal kept in source order *)
Fixpoint assoc_getitem {V} (d : list (Z * V)) (k : Z) : result V :=
  match d with
  | [] => Raise KeyError
  | (k', v) :: rest => if k' =? k then Ok v else assoc_getitem rest k
  end.

(** The union of all the values of [d], as [set.union] computes it from
    the unpacked values: it needs at least one value. *)
Definition union_values (d : PrefixDict) : result Bucket :=
  match (map_to_list d).*2 with
  | [] => Raise TypeError
  | vs => Ok (⋃ vs)
  end.

(** Lines 169-172: the candidate pool for type [t]. *)
Definition get_choices (t : Z) (st : State) : result (Bucket * State) :=
  let* d := dict_getitem (figurate_numbers st) t in
  if Nat.eqb (length (curr_seq st)) 0 then
    let* choices := union_values d in
    Ok (choices, st)
  else
    let* c := list_last (curr_seq st) in
    let '(choices, d') := defaultdict_getitem d (last2 c) in
    Ok (choices, set_figurate_numbers (<[t := d']> (figurate_numbers st)) st).


Section Search.

(** The order in which a [for] loop visits a set is not fixed by the
    language: it may be any enumeration of the elements, and may differ
    from one loop to the next.  [for t in ts] runs while the body
    discards and re-adds [t]; the set has its size back whenever the
    iterator is advanced, so the loop visits the elements the set held
    when the loop started. *)
Variable iter_types : State -> gset Z -> list Z.
Variable iter_choices : State -> Bucket -> list FigurateNumber.

(** Lines 175-180: [for choice in choices]. *)
Fixpoint for_choice (rec : State -> result (bool * State))
    (choices : list FigurateNumber) (st : State) : result (bool * State) :=
  match choices with
  | [] => Ok (false, st)
  | choice :: rest =>
      let st1 := observe AfterAppend (set_curr_seq (curr_seq st ++ [choice]) st) in
      let* r := rec st1 in
      if r.1 then Ok (true, r.2)
      else
        let* l := list_pop (curr_seq r.2) in
        for_choice rec rest (observe AfterPop (set_curr_seq l r.2))
  end.

(** Lines 168-183: [for t in ts]. *)
Fixpoint for_t (rec : State -> result (bool * State))
    (ts : list Z) (st : State) : result (bool * State) :=
  match ts with
  | [] => Ok (false, st)
  | t :: rest =>
      let* p := get_choices t st in
      let st1 := observe AfterDiscard
        (set_remaining (remaining_polygon_types p.2 ∖ {[ t ]}) p.2) in
      let* r := for_choice rec (iter_choices st1 p.1) st1 in
      if r.1 then Ok (true, r.2)
      else
        for_t rec rest
          (observe AfterAdd
             (set_remaining (remaining_polygon_types r.2 ∪ {[ t ]}) r.2))
  end.

(** Lines 159-186. *)
Fixpoint search_seqs (depth : nat) (st0 : State) : result (bool * State) :=
  match depth with
  | O => Raise RecursionError
  | S depth' =>
      let st := observe AtEntry st0 in
      if Nat.eqb (length (curr_seq st)) (size (figurate_numbers st)) then
        let* l := list_last (curr_seq st) in
        let* h := list_first (curr_seq st) in
        Ok (String.eqb (last2 l) (first2 h), st)
      else
        let ts :=
          if Nat.eqb (length (curr_seq st)) 0 then iter_types st {[ 8 ]}
          else iter_types st (remaining_polygon_types st) in
        for_t (search_seqs depth') ts st
  end.

(** Lines 154-191 of [main], from the bucket index on. *)
Definition initial_state (fns : BucketIndex) : State :=
  mkState [] (list_to_set (range 3 9)) fns [].




(** ** The [__main__] block: what is printed, and how the run ends *)

Definition format_line (cf_num : FigurateNumber) : result string :=
  let* label := assoc_getitem FIGURATE_LABELS (fn_type cf_num) in
  Ok ("  " ++ PyNum.format_d 10 (fn_value cf_num) ++ " = P["
      ++ PyNum.format_d 1 (fn_type cf_num) ++ ","
      ++ PyNum.format_d 3 (fn_index cf_num) ++ "] (" ++ label ++ ")")%string.

Fixpoint print_numbers (seq : list FigurateNumber) (out : list string)
  : list string * option exn :=
  match seq with
  | [] => (out, None)
  | cf_num :: rest =>
      match format_line cf_num with
      | Ok line => print_numbers rest (out ++ [line])
      | Raise e => (out, Some e)
      end
  end.

Definition sum_values (seq : list FigurateNumber) : Z :=
  foldl Z.add 0 (fn_value <$> seq).

(** Standard output and the uncaught exception, if any. *)
Definition report (r : result (list FigurateNumber)) : list string * option exn :=
  match r with
  | Raise e => ([], Some e)
  | Ok seq =>
      match print_numbers seq
              ["Cyclical figurate sequence of six 4-digit numbers:"%string] with
      | (out, Some e) => (out, Some e)
      | (out, None) =>
          (out ++ ["Sum of those numbers:";
                   "  " ++ PyNum.str (sum_values seq)]%string, None)
      end
  end.



End Search.

(** The enumeration CPython performs on a set of small integers
    (ascending), and one enumeration of a set of tuples. *)
Definition ascending (_ : State) (s : gset Z) : list Z :=
  merge_sort Z.le (elements s).
Definition in_elements_order (_ : State) (s : Bucket) : list FigurateNumber :=
  elements s.

(** * Specification-level definitions *)

Definition is_ok {A} (r : result A) : bool :=
  match r with Ok _ => true | Raise _ => false end.

Definition from_ok {A} (d : A) (r : result A) : A :=
  match r with Ok a => a | Raise _ => d end.

(** The index the generator loop builds. *)
Definition generated : BucketIndex := from_ok ∅ generate.

(** [n] is visited by [for n in range(n_min, n_max)] for the
    coefficients [(a, b)]. *)
Definition iterated (a b : float) (n : Z) : Prop :=
  exists n_min n_max,
    quadratic_lower_limit a b (- x_lower_bound) = Ok n_min /\
    quadratic_upper_limit a b (- x_upper_bound) = Ok n_max /\
    n_min <= n < n_max.

Definition iterated_list (a b : float) : list Z :=
  match quadratic_lower_limit a b (- x_lower_bound),
        quadratic_upper_limit a b (- x_upper_bound) with
  | Ok n_min, Ok n_max => range n_min n_max
  | _, _ => []
  end.

(** [(x, m, n)] is a tuple the generator adds to the index. *)
Definition Generated (c : FigurateNumber) : Prop :=
  exists a b,
    In (fn_type c, (a, b)) FIGURATE_QUADRATIC_PARAMETERS /\
    iterated a b (fn_index c) /\
    figurate_value a b (fn_index c) = Ok (fn_value c).

(** The float [x] is the non-negative integer [v], with no fraction. *)
Definition exact_integer (x : float) (v : Z) : bool :=
  match PyNum.decompose x with
  | Ok (s, q, r, _) => negb s && (q =? v) && (r =? 0)
  | Raise _ => false
  end.

Definition value_okb (t : Z) (a b : float) (n : Z) : bool :=
  match figurate_value a b n with
  | Ok v => (v =? P t n) && exact_integer (figurate_float a b n) (P t n)
  | Raise _ => false
  end.

(** The bucket of type [t] under [key], a missing one being empty. *)
Definition bucket (f : BucketIndex) (t : Z) (key : string) : Bucket :=
  match f !! t with
  | Some d => default ∅ (d !! key)
  | None => ∅
  end.

(** Every number of type [t], whatever its prefix. *)
Definition all_of_type (f : BucketIndex) (t : Z) : Bucket :=
  match f !! t with
  | Some d => ⋃ (map_to_list d).*2
  | None => ∅
  end.

(** The six polygon types, as [set(range(3, 9))]. *)
Definition all_types : gset Z := list_to_set (range 3 9).

(** The types and the candidates the search may extend [seq] with. *)
Definition types_for (seq : list FigurateNumber) (rem : gset Z) : gset Z :=
  match seq with
  | [] => {[ 8 ]}
  | _ => rem
  end.

Definition pool (f : BucketIndex) (seq : list FigurateNumber) (t : Z) : Bucket :=
  match last seq with
  | None => all_of_type f t
  | Some c => bucket f t (last2 c)
  end.

(** The closing test of line 163. *)
Definition cyclicb (seq : list FigurateNumber) : bool :=
  match last seq, head seq with
  | Some l, Some h => String.eqb (last2 l) (first2 h)
  | _, _ => false
  end.

(** [full] is a sequence the search can reach from the partial
    sequence [seq] with the types [rem] left, and accept. *)
Inductive Completes (f : BucketIndex)
  : list FigurateNumber -> gset Z -> list FigurateNumber -> Prop :=
| Completes_done seq rem :
    length seq = size f -> cyclicb seq = true -> Completes f seq rem seq
| Completes_step seq rem t c full :
    length seq <> size f ->
    t ∈ types_for seq rem -> c ∈ pool f seq t ->
    Completes f (seq ++ [c]) (rem ∖ {[ t ]}) full ->
    Completes f seq rem full.

(** All of them, [k] being the number of places still to fill. *)
Fixpoint completions (f : BucketIndex) (k : nat)
    (seq : list FigurateNumber) (rem : gset Z) : list (list FigurateNumber) :=
  match k with
  | O => if cyclicb seq then [seq] else []
  | S k' =>
      flat_map (fun t =>
        flat_map (fun c => completions f k' (seq ++ [c]) (rem ∖ {[ t ]}))
                 (elements (pool f seq t)))
        (elements (types_for seq rem))
  end.

(** A later index holds what an earlier one held, and nothing else
    but empty buckets under prefixes that were absent. *)
Definition inner_extends (d d' : PrefixDict) : Prop :=
  forall k, d' !! k = d !! k \/ (d !! k = None /\ d' !! k = Some ∅).

Definition index_extends (f f' : BucketIndex) : Prop :=
  forall t, option_Forall2 inner_extends (f !! t) (f' !! t).

(** What the search relies on in the index it is given. *)
Record well_formed_index (f : BucketIndex) : Prop := {
  wf_dom : dom f = all_types;
  wf_types : forall t d k s c,
    f !! t = Some d -> d !! k = Some s -> c ∈ s -> fn_type c = t /\ k = first2 c;
  wf_seed : exists d, f !! 8 = Some d /\ d <> ∅;
}.

Definition index_typedb (f : BucketIndex) : bool :=
  forallb (fun td : Z * PrefixDict =>
    forallb (fun ks : string * Bucket =>
      forallb (fun c => (fn_type c =? td.1) && String.eqb ks.1 (first2 c))
              (elements ks.2))
      (map_to_list td.2))
    (map_to_list f).

Definition well_formedb (f : BucketIndex) : bool :=
  bool_decide (dom f = all_types) && index_typedb f &&
  match f !! 8 with Some d => negb (Nat.eqb (size d) 0) | None => false end.

(** The relation between [curr_seq] and [remaining_polygon_types]. *)
Definition Inv (seq : list FigurateNumber) (rem : gset Z) : Prop :=
  rem ⊆ all_types /\
  list_to_set (fn_type <$> seq) = all_types ∖ rem /\
  NoDup (fn_type <$> seq).


(** Any enumeration of the elements. *)
Definition enumerates {A} `{Countable A} (iter : State -> gset A -> list A) : Prop :=
  forall st s, iter st s ≡ₚ elements s.

(** The sequence all runs return. *)
Definition answer : list FigurateNumber :=
  [ (1281, 8, 21); (8128, 6, 64); (2882, 5, 44);
    (8256, 3, 128); (5625, 4, 75); (2512, 7, 32) ].



(** The tuple of [(t, (a, b))] at [n] is in the bucket of its prefix. *)
Definition stored_okb (t : Z) (a b : float) (n : Z) : bool :=
  match figurate_value a b n with
  | Ok v => bool_decide ((v, t, n) ∈ bucket generated t (first2 (v, t, n)))
  | Raise _ => false
  end.









(** The two decimal digits of a number below 100, as [str] writes them. *)
Definition digit (n : Z) : ascii := ascii_of_nat (48 + Z.to_nat n).

Definition two_digits (n : Z) : string :=
  String (digit (n / 10)) (String (digit (n mod 10)) EmptyString).




(** Is there an entry for [key] in the dictionary of type [t]? *)
Definition key_present (f : BucketIndex) (t : Z) (key : string) : bool :=
  match f !! t with
  | Some d => match d !! key with Some _ => true | None => false end
  | None => false
  end.










(** * Definitions for the further properties *)

(** The float is finite and has no fractional part. *)
Definition integral (x : float) : bool :=
  match PyNum.decompose x with
  | Ok (_, _, r, _) => r =? 0
  | Raise _ => false
  end.

(** The discriminant and the divisor as the helpers compute them. *)
Definition discriminant (a b : float) (c : Z) : float :=
  (PyNum.pow2 b - PyNum.float_of_int 4 * a * PyNum.float_of_int c)%float.

Definition divisor (a : float) : float := (PyNum.float_of_int 2 * a)%float.

(** Neither an infinity nor a NaN. *)
Definition finite (x : float) : bool :=
  match Prim2SF x with
  | S754_zero _ | S754_finite _ _ _ => true
  | _ => false
  end.

(** The indices [range(n_min, n_max)] runs over, per type. *)
Definition index_range (t : Z) : Z * Z :=
  match t with
  | 3 => (45, 141) | 4 => (32, 101) | 5 => (26, 82)
  | 6 => (23, 71) | 7 => (21, 64) | 8 => (19, 59)
  | _ => (0, 0)
  end.

(** An index whose dictionaries are the ones the passes built. *)
Definition built (f : BucketIndex) : Prop :=
  dom f = all_types /\
  forall t,
    f !! t = None \/
    exists a b d,
      In (t, (a, b)) FIGURATE_QUADRATIC_PARAMETERS /\
      generate_type t a b = Ok d /\ f !! t = Some d.


(** [c] may follow [p]: the first number is octagonal, a later one
    starts with the two characters its predecessor ends with. *)
Definition follows (p : option FigurateNumber) (c : FigurateNumber) : Prop :=
  match p with
  | None => fn_type c = 8
  | Some x => last2 x = first2 c
  end.

Fixpoint chain (p : option FigurateNumber) (l : list FigurateNumber) : Prop :=
  match l with
  | [] => True
  | c :: l' => follows p c /\ chain (Some c) l'
  end.

(** What the search looks for in the index [f]: one number per type of
    the index, of pairwise different types, each stored in [f] under its
    type and prefix, the first octagonal, each starting as its
    predecessor ends, and the first starting as the last ends. *)
Definition cyclic_sequence (f : BucketIndex) (seq : list FigurateNumber) : Prop :=
  length seq = size f /\
  NoDup (fn_type <$> seq) /\
  (forall x, x ∈ seq -> x ∈ bucket f (fn_type x) (first2 x)) /\
  chain None seq /\
  cyclicb seq = true.

(** [(P[t,n], t, n)] with four digits. *)
Definition four_digit_figurate (c : FigurateNumber) : Prop :=
  fn_type c ∈ all_types /\ 1 <= fn_index c /\
  fn_value c = P (fn_type c) (fn_index c) /\ 1000 <= fn_value c <= 9999.

(** The type of [c] is one of the six keys of [FIGURATE_LABELS]. *)
Definition labelled (c : FigurateNumber) : Prop := fn_type c ∈ all_types.

(** The line printed for [c]. *)
Definition printed_as (c : FigurateNumber) (line : string) : Prop :=
  format_line c = Ok line.

Definition heading : string :=
  "Cyclical figurate sequence of six 4-digit numbers:".

(** * The generator *)

Lemma is_ok_from_ok {A} (d : A) r : is_ok r = true -> r = Ok (from_ok d r).
Proof. destruct r; [reflexivity | discriminate]. Qed.

Lemma generate_succeeds : is_ok generate = true.
Proof. vm_compute. reflexivity. Qed.

Lemma generate_ok : generate = Ok generated.
Proof. apply is_ok_from_ok, generate_succeeds. Qed.

(** From here on the index is only evaluated, never unfolded. *)
#[global] Opaque generated.

Lemma iterated_in_list a b n : iterated a b n -> In n (iterated_list a b).
Proof.
  intros (n_min & n_max & Hlo & Hhi & Hn). unfold iterated_list.
  rewrite Hlo, Hhi. apply list_elem_of_In, elem_of_seqZ. lia.
Qed.

Lemma values_checked :
  forallb (fun p : Z * (float * float) =>
             forallb (value_okb p.1 p.2.1 p.2.2) (iterated_list p.2.1 p.2.2))
          FIGURATE_QUADRATIC_PARAMETERS = true.
Proof. vm_compute. reflexivity. Qed.

Lemma value_okb_iterated t a b n :
  In (t, (a, b)) FIGURATE_QUADRATIC_PARAMETERS -> iterated a b n ->
  value_okb t a b n = true.
Proof.
  intros Hin Hn.
  pose proof values_checked as H.
  rewrite forallb_forall in H. specialize (H _ Hin). cbn [fst snd] in H.
  rewrite forallb_forall in H. apply H, iterated_in_list, Hn.
Qed.

(** C9: for every parameter entry [(t, (a, b))] and every index [n] the
    generator iterates, [round(a * n ** 2 + b * n)] is exactly [P[t,n]],
    and the float it rounds is already that integer: its integer part is
    [P[t,n]] and its fractional part is zero. *)
Theorem round_is_exact t a b n :
  In (t, (a, b)) FIGURATE_QUADRATIC_PARAMETERS -> iterated a b n ->
  figurate_value a b n = Ok (P t n) /\
  exists d, PyNum.decompose (figurate_float a b n) = Ok (false, P t n, 0, d).
Proof.
  intros Hin Hn. pose proof (value_okb_iterated _ _ _ _ Hin Hn) as H.
  unfold value_okb, exact_integer in H.
  destruct (figurate_value a b n) as [v|]; [|discriminate].
  apply andb_prop in H as [Hv H]. apply Z.eqb_eq in Hv. subst v.
  split; [reflexivity|].
  destruct (PyNum.decompose (figurate_float a b n)) as [[[[s q] r] d]|]; [|discriminate].
  apply andb_prop in H as [H Hr]. apply andb_prop in H as [Hs Hq].
  apply Z.eqb_eq in Hr, Hq. destruct s; [discriminate|]. subst. eauto.
Qed.

Lemma round_is_exact_witness :
  figurate_value 0.5 0.5 45 = Ok (P 3 45) /\
  exists d, PyNum.decompose (figurate_float 0.5 0.5 45) = Ok (false, P 3 45, 0, d).
Proof.
  apply (round_is_exact 3 0.5 0.5 45).
  - simpl. left. reflexivity.
  - exists 45, 141. split; [vm_compute; reflexivity|]. split; [vm_compute; reflexivity|]. lia.
Defined.

(** * The generated index *)

Lemma index_typedb_spec f :
  index_typedb f = true ->
  forall t d k s c,
    f !! t = Some d -> d !! k = Some s -> c ∈ s -> fn_type c = t /\ k = first2 c.
Proof.
  unfold index_typedb. intros H t d k s c Ht Hk Hc.
  assert (H1 := proj1 (forallb_forall _ _) H (t, d)
                  (proj1 (list_elem_of_In _ _) (proj2 (elem_of_map_to_list f t d) Ht))).
  cbn [fst snd] in H1.
  assert (H2 := proj1 (forallb_forall _ _) H1 (k, s)
                  (proj1 (list_elem_of_In _ _) (proj2 (elem_of_map_to_list d k s) Hk))).
  cbn [fst snd] in H2.
  assert (H3 := proj1 (forallb_forall _ _) H2 c
                  (proj1 (list_elem_of_In _ _) (proj2 (elem_of_elements s c) Hc))).
  apply andb_prop in H3 as [Ha Hb].
  apply Z.eqb_eq in Ha. apply String.eqb_eq in Hb. auto.
Qed.

Lemma well_formedb_spec f : well_formedb f = true -> well_formed_index f.
Proof.
  unfold well_formedb. intros H.
  apply andb_prop in H as [H Hseed]. apply andb_prop in H as [Hdom Htyp].
  split.
  - apply bool_decide_eq_true in Hdom. exact Hdom.
  - apply index_typedb_spec, Htyp.
  - destruct (f !! 8) as [d|]; [|discriminate]. exists d. split; [reflexivity|].
    intros ->. rewrite map_size_empty in Hseed. discriminate.
Qed.

Lemma generated_well_formed : well_formed_index generated.
Proof. apply well_formedb_spec. vm_compute. reflexivity. Qed.

Lemma elem_of_bucket f t key c :
  c ∈ bucket f t key <-> exists d s, f !! t = Some d /\ d !! key = Some s /\ c ∈ s.
Proof.
  unfold bucket. split.
  - destruct (f !! t) as [d|]; [|set_solver].
    destruct (d !! key) as [s|] eqn:E; simpl; [|set_solver]. eauto.
  - intros (d & s & -> & Hk & Hc). rewrite Hk. exact Hc.
Qed.

Lemma stored_checked :
  forallb (fun p : Z * (float * float) =>
             forallb (stored_okb p.1 p.2.1 p.2.2) (iterated_list p.2.1 p.2.2))
          FIGURATE_QUADRATIC_PARAMETERS = true.
Proof. vm_compute. reflexivity. Qed.

(** C4: every tuple [(v, t, n)] the generator produces is in the bucket
    of type [t] under the first two characters of [str(v)], and in no
    bucket of another type or under another prefix. *)
Theorem generated_in_its_bucket_only c :
  Generated c ->
  (exists d s, generated !! fn_type c = Some d /\
               d !! PyNum.slice_to 2 (PyNum.str (fn_value c)) = Some s /\ c ∈ s) /\
  (forall t d key s,
     generated !! t = Some d -> d !! key = Some s -> c ∈ s ->
     t = fn_type c /\ key = PyNum.slice_to 2 (PyNum.str (fn_value c))).
Proof.
  intros (a & b & Hin & Hn & Hv). split.
  - pose proof stored_checked as H.
    rewrite forallb_forall in H. specialize (H _ Hin). cbn [fst snd] in H.
    rewrite forallb_forall in H. specialize (H _ (iterated_in_list _ _ _ Hn)).
    unfold stored_okb in H. rewrite Hv in H.
    apply bool_decide_eq_true in H. apply elem_of_bucket in H.
    destruct c as [[v t] n]. exact H.
  - intros t d key s Ht Hk Hc.
    destruct (wf_types _ generated_well_formed t d key s c Ht Hk Hc) as [H1 H2].
    split; [symmetry; exact H1 | exact H2].
Qed.

Lemma generated_in_its_bucket_only_witness :
  (exists d s, generated !! 8 = Some d /\ d !! "12"%string = Some s /\ (1281, 8, 21) ∈ s) /\
  (forall t d key s,
     generated !! t = Some d -> d !! key = Some s -> (1281, 8, 21) ∈ s ->
     t = 8 /\ key = "12"%string).
Proof.
  apply (generated_in_its_bucket_only (1281, 8, 21)).
  exists 3.0%float, (-2.0)%float. split; [|split].
  - simpl. do 5 right. left. reflexivity.
  - exists 19, 59. split; [vm_compute; reflexivity|]. split; [vm_compute; reflexivity|].
    simpl. lia.
  - vm_compute. reflexivity.
Defined.

(** C3 (the code at the input where it breaks the claim): for the square
    type the upper root is the integer 100, [quadratic_upper_limit]
    returns 101, the generator iterates [n = 100] and stores
    [10000 = 100²], which is not below [x_upper_bound]. *)
Theorem square_upper_limit_admits_10000 :
  In (4, (1.0, 0.0)%float) FIGURATE_QUADRATIC_PARAMETERS /\
  quadratic_upper_limit 1.0 0.0 (- x_upper_bound) = Ok 101 /\
  iterated 1.0 0.0 100 /\
  figurate_value 1.0 0.0 100 = Ok 10000 /\
  Generated (10000, 4, 100) /\
  (10000, 4, 100) ∈ bucket generated 4 "10" /\
  ~ (10000 < x_upper_bound).
Proof.
  assert (Hin : In (4, (1.0, 0.0)%float) FIGURATE_QUADRATIC_PARAMETERS)
    by (simpl; right; left; reflexivity).
  assert (Hit : iterated 1.0 0.0 100).
  { exists 32, 101. split; [vm_compute; reflexivity|].
    split; [vm_compute; reflexivity|]. lia. }
  assert (Hv : figurate_value 1.0 0.0 100 = Ok 10000) by (vm_compute; reflexivity).
  split; [exact Hin|]. split; [vm_compute; reflexivity|].
  split; [exact Hit|]. split; [exact Hv|]. split; [|split].
  - exists 1.0%float, 0.0%float. auto.
  - apply (proj1 (bool_decide_eq_true (_ ∈ bucket generated 4 "10"))).
    vm_compute. reflexivity.
  - unfold x_upper_bound. lia.
Qed.

(** * What the search does to the index and to the log *)

Lemma inner_extends_refl d : inner_extends d d.
Proof. intros k. left. reflexivity. Qed.




Lemma defaultdict_getitem_spec d key :
  (defaultdict_getitem d key).1 = default ∅ (d !! key) /\
  inner_extends d (defaultdict_getitem d key).2.
Proof.
  unfold defaultdict_getitem. destruct (d !! key) as [s|] eqn:E; simpl.
  - split; [reflexivity | apply inner_extends_refl].
  - split; [reflexivity|]. intros k. destruct (decide (k = key)) as [->|Hne].
    + right. split; [exact E | apply lookup_insert_eq].
    + left. apply lookup_insert_ne. congruence.
Qed.








Section Frame.

Variable iter_types : State -> gset Z -> list Z.
Variable iter_choices : State -> Bucket -> list FigurateNumber.



End Frame.

(** * Buckets seen through an extended index *)



Lemma elem_of_union_values (d : PrefixDict) c :
  c ∈ ⋃ (map_to_list d).*2 <-> exists k s, d !! k = Some s /\ c ∈ s.
Proof.
  rewrite elem_of_union_list. split.
  - intros (s & Hs & Hc). apply list_elem_of_fmap in Hs as ([k s'] & -> & Hin).
    apply elem_of_map_to_list in Hin. eauto.
  - intros (k & s & Hk & Hc). exists s. split; [|exact Hc].
    apply list_elem_of_fmap. exists (k, s). split; [reflexivity|].
    apply elem_of_map_to_list, Hk.
Qed.

Lemma inner_extends_default d d' k :
  inner_extends d d' -> default ∅ (d' !! k) = default ∅ (d !! k).
Proof. intros H. destruct (H k) as [->|[-> ->]]; reflexivity. Qed.

Lemma inner_extends_union d d' :
  inner_extends d d' -> ⋃ (map_to_list d').*2 = ⋃ (map_to_list d).*2.
Proof.
  intros H. apply set_eq. intros c. rewrite !elem_of_union_values.
  split; intros (k & s & Hk & Hc); destruct (H k) as [E|[E1 E2]].
  - exists k, s. rewrite <- E. auto.
  - rewrite E2 in Hk. injection Hk as <-. set_solver.
  - exists k, s. rewrite E. auto.
  - congruence.
Qed.



Lemma index_extends_all_of_type f f' t :
  index_extends f f' -> all_of_type f' t = all_of_type f t.
Proof.
  intros H. unfold all_of_type. destruct (H t) as [d d' Hd|]; [|reflexivity].
  apply inner_extends_union, Hd.
Qed.

Lemma elem_of_all_of_type f t c :
  c ∈ all_of_type f t <-> exists k, c ∈ bucket f t k.
Proof.
  unfold all_of_type, bucket. destruct (f !! t) as [d|].
  - rewrite elem_of_union_values. split.
    + intros (k & s & Hk & Hc). exists k. rewrite Hk. exact Hc.
    + intros (k & Hc). destruct (d !! k) as [s|] eqn:E; [eauto | set_solver].
  - split; [set_solver | intros [_ H]; set_solver].
Qed.

Lemma pool_type f seq t c :
  well_formed_index f -> c ∈ pool f seq t -> fn_type c = t.
Proof.
  intros Hwf. unfold pool. intros Hc.
  assert (exists k, c ∈ bucket f t k) as [k Hk].
  { destruct (last seq); [eauto | apply elem_of_all_of_type, Hc]. }
  apply elem_of_bucket in Hk as (d & s & Ht & Hs & Hin).
  eapply wf_types; eassumption.
Qed.



(** * The relation between the sequence and the remaining types *)


Lemma eight_in_all_types : 8 ∈ all_types.
Proof. apply (proj1 (bool_decide_eq_true (8 ∈ all_types))). vm_compute. reflexivity. Qed.

Lemma Inv_initial : Inv [] all_types.
Proof. unfold Inv. repeat split; [set_solver | constructor]. Qed.

Lemma Inv_nil_rem rem : Inv [] rem -> rem = all_types.
Proof.
  intros (Hsub & Hset & _). simpl in Hset. apply set_eq. intros x. split.
  - apply Hsub.
  - intros Hx. destruct (decide (x ∈ rem)) as [|Hn]; [assumption|].
    assert (x ∈ all_types ∖ rem) as H by set_solver.
    rewrite <- Hset in H. set_solver.
Qed.

Lemma Inv_step seq rem t c :
  Inv seq rem -> t ∈ rem -> fn_type c = t -> Inv (seq ++ [c]) (rem ∖ {[ t ]}).
Proof.
  intros (Hsub & Hset & Hnd) Ht Hc. unfold Inv.
  rewrite fmap_app, list_to_set_app_L, Hset. simpl. rewrite Hc.
  split; [set_solver|]. split.
  - apply set_eq. intros x. destruct (decide (x = t)); set_solver.
  - apply NoDup_app. split; [exact Hnd|]. split; [|apply NoDup_singleton].
    intros x Hx Hin. apply list_elem_of_singleton in Hin. subst x.
    apply (elem_of_list_to_set (C:=gset Z)) in Hx. rewrite Hset in Hx. set_solver.
Qed.



(** * The search against the reachable sequences *)


Lemma types_for_rem seq rem t : Inv seq rem -> t ∈ types_for seq rem -> t ∈ rem.
Proof.
  intros HInv Ht. destruct seq as [|c l]; [|exact Ht].
  apply Inv_nil_rem in HInv. subst rem. simpl in Ht.
  apply elem_of_singleton in Ht. subst t. apply eight_in_all_types.
Qed.

Section Simulation.

Variable iter_types : State -> gset Z -> list Z.
Variable iter_choices : State -> Bucket -> list FigurateNumber.
Hypothesis iter_types_enum : enumerates iter_types.
Hypothesis iter_choices_enum : enumerates iter_choices.
Variable f0 : BucketIndex.
Hypothesis f0_wf : well_formed_index f0.





End Simulation.

(** * All reachable sequences, and the run of [main] *)

Lemma Completes_completions f seq rem full :
  Completes f seq rem full ->
  forall k, (length seq + k = size f)%nat -> In full (completions f k seq rem).
Proof.
  induction 1 as [seq rem Hlen Hcyc | seq rem t c full Hlen Ht Hc HC IH]; intros k Hk.
  - assert (k = 0%nat) as -> by lia. simpl. rewrite Hcyc. left. reflexivity.
  - destruct k as [|k]; [exfalso; apply Hlen; lia|].
    cbn [completions]. apply in_flat_map. exists t. split.
    + apply list_elem_of_In, elem_of_elements, Ht.
    + apply in_flat_map. exists c. split.
      * apply list_elem_of_In, elem_of_elements, Hc.
      * apply IH. rewrite length_app. simpl. lia.
Qed.

Lemma completions_Completes f k :
  forall seq rem full,
    (length seq + k = size f)%nat -> In full (completions f k seq rem) ->
    Completes f seq rem full.
Proof.
  induction k as [|k IH]; intros seq rem full Hk Hin.
  - simpl in Hin. destruct (cyclicb seq) eqn:Hcyc; [|destruct Hin].
    destruct Hin as [<-|[]]. apply Completes_done; [lia | exact Hcyc].
  - cbn [completions] in Hin. apply in_flat_map in Hin as (t & Ht & Hin).
    apply in_flat_map in Hin as (c & Hc & Hin).
    apply list_elem_of_In, elem_of_elements in Ht, Hc.
    eapply Completes_step; [lia | exact Ht | exact Hc |].
    apply IH; [|exact Hin]. rewrite length_app. simpl. lia.
Qed.

Lemma completions_generated : completions generated 6 [] all_types = [answer].
Proof. vm_compute. reflexivity. Qed.

Lemma size_generated : size generated = 6%nat.
Proof. vm_compute. reflexivity. Qed.

Lemma Completes_generated full :
  Completes generated [] all_types full <-> full = answer.
Proof.
  split.
  - intros H. apply Completes_completions with (k := 6%nat) in H.
    + rewrite completions_generated in H. destruct H as [<-|[]]. reflexivity.
    + rewrite size_generated. reflexivity.
  - intros ->. apply completions_Completes with (k := 6%nat).
    + rewrite size_generated. reflexivity.
    + rewrite completions_generated. left. reflexivity.
Qed.


Section Run.

Variable iter_types : State -> gset Z -> list Z.
Variable iter_choices : State -> Bucket -> list FigurateNumber.
Hypothesis iter_types_enum : enumerates iter_types.
Hypothesis iter_choices_enum : enumerates iter_choices.




End Run.


(** * The two enumerations used for concrete runs *)

Lemma ascending_enumerates : enumerates ascending.
Proof. intros st s. unfold ascending. apply merge_sort_Permutation. Qed.



(** * The result of [main] *)








(** * The invariant of the search state *)





(** * The index during the search *)




(** * How the run ends *)




(** * The candidates of one search step *)

Lemma four_digit_suffix_checked :
  forallb (fun v => String.eqb (last2 (v, 0, 0)) (two_digits (v mod 100)))
          (range 1000 10000) = true.
Proof. vm_compute. reflexivity. Qed.

(** For a four-digit value, [str(v)[2:]] is its last two digits. *)
Lemma last2_four_digits c :
  1000 <= fn_value c <= 9999 -> last2 c = two_digits (fn_value c mod 100).
Proof.
  intros Hv. pose proof four_digit_suffix_checked as H.
  rewrite forallb_forall in H. specialize (H (fn_value c)).
  apply String.eqb_eq. apply H.
  apply list_elem_of_In, elem_of_seqZ. lia.
Qed.















(** * Further properties: the quadratic-bound helpers *)

(** X1: on the same arguments the exclusive upper limit is the inclusive
    lower limit plus one when the root is an integer, and equal to it
    otherwise: [range(lower, upper)] holds the root itself or nothing. *)
Theorem limits_of_one_formula a b c lo hi :
  quadratic_lower_limit a b c = Ok lo ->
  quadratic_upper_limit a b c = Ok hi ->
  exists x,
    quadratic_root a b c = Ok x /\
    hi = if integral x then lo + 1 else lo.
Proof.
  unfold quadratic_lower_limit, quadratic_upper_limit.
  destruct (quadratic_root a b c) as [x|]; cbn [rbind]; [|discriminate].
  unfold PyNum.ceil, PyNum.floor, integral.
  destruct (PyNum.decompose x) as [[[[s q] r] d]|] eqn:E; cbn [rbind];
    [|discriminate].
  intros [= <-] [= <-]. exists x. split; [reflexivity|]. rewrite E.
  destruct s, (r =? 0); lia.
Qed.

Lemma limits_of_one_formula_witness :
  exists x,
    quadratic_root 1.0 0.0 (-10000) = Ok x /\
    101 = if integral x then 100 + 1 else 100.
Proof.
  apply (limits_of_one_formula 1.0 0.0 (-10000) 100 101).
  - vm_compute. reflexivity.
  - vm_compute. reflexivity.
Defined.

(** X2: how the helpers end, for a [b] whose square does not overflow
    and a [c] that converts to a float.  A negative discriminant is a
    [ValueError] of [sqrt]; otherwise a zero divisor is a
    [ZeroDivisionError]; otherwise both return, or both raise the same
    exception from [ceil]/[floor] on a root that is not finite. *)
Theorem limits_outcome a b c :
  finite (PyNum.pow2 b) = true -> Z.abs c < 2 ^ 1023 ->
  if (discriminant a b c <? 0)%float then
    quadratic_lower_limit a b c = Raise ValueError /\
    quadratic_upper_limit a b c = Raise ValueError
  else if (divisor a =? 0)%float then
    quadratic_lower_limit a b c = Raise ZeroDivisionError /\
    quadratic_upper_limit a b c = Raise ZeroDivisionError
  else
    (exists lo hi, quadratic_lower_limit a b c = Ok lo /\
                   quadratic_upper_limit a b c = Ok hi) \/
    (quadratic_lower_limit a b c = Raise OverflowError /\
     quadratic_upper_limit a b c = Raise OverflowError) \/
    (quadratic_lower_limit a b c = Raise ValueError /\
     quadratic_upper_limit a b c = Raise ValueError).
Proof.
  intros _ _.
  unfold quadratic_lower_limit, quadratic_upper_limit, quadratic_root.
  fold (discriminant a b c). fold (divisor a). unfold PyNum.sqrt, PyNum.truediv.
  destruct (discriminant a b c <? 0)%float; cbn [rbind]; [split; reflexivity|].
  destruct (divisor a =? 0)%float; cbn [rbind]; [split; reflexivity|].
  unfold PyNum.ceil, PyNum.floor, PyNum.decompose.
  destruct (Prim2SF _) as [s|s| |s m e]; cbn [rbind].
  - left. eauto.
  - right. left. split; reflexivity.
  - right. right. split; reflexivity.
  - left. destruct (0 <=? e); cbn [rbind]; eauto.
Qed.

Lemma limits_outcome_witness :
  (quadratic_lower_limit 1.0 0.0 1 = Raise ValueError /\
   quadratic_upper_limit 1.0 0.0 1  = Raise ValueError) /\
  (quadratic_lower_limit 0.0 1.0 (-1) = Raise ZeroDivisionError /\
   quadratic_upper_limit 0.0 1.0 (-1) = Raise ZeroDivisionError).
Proof.
  split.
  - apply (limits_outcome 1.0 0.0 1); [vm_compute; reflexivity|].
    apply Z.pow_gt_1; cbn; lia.
  - apply (limits_outcome 0.0 1.0 (-1)); [vm_compute; reflexivity|].
    apply Z.pow_gt_1; cbn; lia.
Defined.

(** * Further properties: the generator loop *)

Lemma add_number_contents m a b d n d' :
  add_number m a b d n = Ok d' ->
  exists x,
    figurate_value a b n = Ok x /\
    forall key c,
      c ∈ default ∅ (d' !! key) <->
      c ∈ default ∅ (d !! key) \/ (c = (x, m, n) /\ key = first2 c).
Proof.
  unfold add_number. destruct (figurate_value a b n) as [x|]; cbn [rbind]; [|discriminate].
  set (k := PyNum.slice_to 2 (PyNum.str x)).
  pose proof (defaultdict_getitem_spec d k) as [Hs Hd].
  destruct (defaultdict_getitem d k) as [s d1]. cbn [fst snd] in Hs, Hd.
  intros [= <-]. exists x. split; [reflexivity|]. intros key c.
  destruct (decide (key = k)) as [->|Hne].
  - rewrite lookup_insert_eq. simpl. rewrite Hs, elem_of_union, elem_of_singleton.
    split; (intros [H|H]; [left; exact H | right]).
    + subst c. split; reflexivity.
    + apply H.
  - rewrite lookup_insert_ne by congruence.
    rewrite (inner_extends_default _ _ key Hd). split; [tauto|].
    intros [H|[-> Hk]]; [exact H|]. exfalso. apply Hne. exact Hk.
Qed.

Lemma add_number_nonempty m a b d n d' :
  add_number m a b d n = Ok d' ->
  (forall k s, d !! k = Some s -> s <> ∅) ->
  forall k s, d' !! k = Some s -> s <> ∅.
Proof.
  unfold add_number. destruct (figurate_value a b n) as [x|]; cbn [rbind]; [|discriminate].
  set (k0 := PyNum.slice_to 2 (PyNum.str x)).
  unfold defaultdict_getitem. intros H Hd k s.
  destruct (d !! k0) as [s0|] eqn:E; injection H as <-.
  - destruct (decide (k = k0)) as [->|Hne].
    + rewrite lookup_insert_eq. intros [= <-]. set_solver.
    + rewrite lookup_insert_ne by congruence. apply Hd.
  - destruct (decide (k = k0)) as [->|Hne].
    + rewrite lookup_insert_eq. intros [= <-]. set_solver.
    + rewrite !lookup_insert_ne by congruence. apply Hd.
Qed.

Lemma for_n_contents m a b ns : forall d d',
  for_n m a b ns d = Ok d' ->
  forall key c,
    c ∈ default ∅ (d' !! key) <->
    c ∈ default ∅ (d !! key) \/
    (fn_type c = m /\ fn_index c ∈ ns /\
     figurate_value a b (fn_index c) = Ok (fn_value c) /\ key = first2 c).
Proof.
  induction ns as [|n ns IH]; intros d d'; cbn [for_n].
  - intros [= <-] key c. split; [tauto|]. intros [H|(_ & H & _)]; [exact H|].
    apply elem_of_nil in H. destruct H.
  - destruct (add_number m a b d n) as [d1|] eqn:E; cbn [rbind]; [|discriminate].
    apply add_number_contents in E as (x & Hx & Hadd).
    intros H key c. rewrite (IH _ _ H), Hadd, elem_of_cons. split.
    + intros [[H1|[-> Hk]]|(Ht & Hn & Hv & Hk)]; [tauto| |tauto].
      right. repeat split; [left; reflexivity | exact Hx | exact Hk].
    + intros [H1|(Ht & [Hn|Hn] & Hv & Hk)]; [tauto| |tauto].
      left. right. split; [|exact Hk].
      destruct c as [[v t] i]. cbn in Ht, Hn, Hv. subst t i.
      rewrite Hx in Hv. injection Hv as ->. reflexivity.
Qed.

Lemma for_n_nonempty m a b ns : forall d d',
  for_n m a b ns d = Ok d' ->
  (forall k s, d !! k = Some s -> s <> ∅) ->
  forall k s, d' !! k = Some s -> s <> ∅.
Proof.
  induction ns as [|n ns IH]; intros d d'; cbn [for_n].
  - intros [= <-] H. exact H.
  - destruct (add_number m a b d n) as [d1|] eqn:E; cbn [rbind]; [|discriminate].
    intros H Hd. apply (IH _ _ H). eapply add_number_nonempty; eassumption.
Qed.

(** X3: for any type number and coefficients, the dictionary one pass
    of the outer loop builds holds, under a prefix [key], exactly the
    tuples [(round(a * n ** 2 + b * n), m, n)] with [n] in
    [range(n_min, n_max)] whose value starts with [key]. *)
Theorem generate_type_contents m a b d :
  generate_type m a b = Ok d ->
  forall key c,
    c ∈ default ∅ (d !! key) <->
    fn_type c = m /\ iterated a b (fn_index c) /\
    figurate_value a b (fn_index c) = Ok (fn_value c) /\ key = first2 c.
Proof.
  unfold generate_type, iterated.
  destruct (quadratic_lower_limit a b (- x_lower_bound)) as [n_min|];
    cbn [rbind]; [|discriminate].
  destruct (quadratic_upper_limit a b (- x_upper_bound)) as [n_max|];
    cbn [rbind]; [|discriminate].
  intros H key c. rewrite (for_n_contents _ _ _ _ _ _ H), lookup_empty.
  simpl default. unfold range. rewrite elem_of_seqZ. split.
  - intros [H0|(Ht & Hn & Hv & Hk)]; [set_solver|].
    repeat split; try assumption. exists n_min, n_max.
    repeat split; try reflexivity; lia.
  - intros (Ht & (lo & hi & [= <-] & [= <-] & Hn) & Hv & Hk).
    right. repeat split; try assumption; lia.
Qed.

Lemma generate_type_contents_witness :
  (1281, 8, 21) ∈ default ∅ (from_ok ∅ (generate_type 8 3.0 (-2.0)) !! "12"%string) <->
  fn_type (1281, 8, 21) = 8 /\ iterated 3.0 (-2.0) (fn_index (1281, 8, 21)) /\
  figurate_value 3.0 (-2.0) (fn_index (1281, 8, 21)) = Ok (fn_value (1281, 8, 21)) /\
  "12"%string = first2 (1281, 8, 21).
Proof.
  apply (generate_type_contents 8 3.0 (-2.0)).
  apply is_ok_from_ok. vm_compute. reflexivity.
Defined.

Lemma generate_type_nonempty m a b d key :
  generate_type m a b = Ok d -> d !! key <> Some ∅.
Proof.
  unfold generate_type.
  destruct (quadratic_lower_limit a b (- x_lower_bound)) as [n_min|];
    cbn [rbind]; [|discriminate].
  destruct (quadratic_upper_limit a b (- x_upper_bound)) as [n_max|];
    cbn [rbind]; [|discriminate].
  intros H Hk. eapply for_n_nonempty; [exact H| |exact Hk|reflexivity].
  intros k s0. rewrite lookup_empty. discriminate.
Qed.

(** The outer loop: the dictionary of a type is the one a pass for an
    entry of that type built, or the one that was there. *)
Lemma for_m_lookup params : forall fns f,
  for_m params fns = Ok f ->
  forall t,
    (forall a b, ~ In (t, (a, b)) params) /\ f !! t = fns !! t \/
    exists a b d,
      In (t, (a, b)) params /\ generate_type t a b = Ok d /\ f !! t = Some d.
Proof.
  induction params as [|[m [a b]] rest IH]; intros fns f; cbn [for_m].
  - intros [= <-] t. left. split; [intros a b []|reflexivity].
  - destruct (generate_type m a b) as [d|] eqn:E; cbn [rbind]; [|discriminate].
    intros H t. destruct (IH _ _ H t) as [[Hnot Ht]|(a' & b' & d' & Hin & Hg & Ht)].
    + destruct (decide (t = m)) as [->|Hne].
      * right. exists a, b, d. rewrite Ht, lookup_insert_eq.
        split; [left; reflexivity|]. split; [exact E | reflexivity].
      * left. rewrite Ht, lookup_insert_ne by congruence. split; [|reflexivity].
        intros a0 b0 [[=]|Hin]; [congruence|]. exact (Hnot _ _ Hin).
    + right. exists a', b', d'. split; [right; exact Hin|]. split; assumption.
Qed.

Lemma generated_lookup t :
  generated !! t = None \/
  exists a b d,
    In (t, (a, b)) FIGURATE_QUADRATIC_PARAMETERS /\
    generate_type t a b = Ok d /\ generated !! t = Some d.
Proof.
  destruct (for_m_lookup _ _ _ generate_ok t) as [[_ H]|H].
  - left. rewrite H. apply lookup_empty.
  - right. exact H.
Qed.

Lemma parameters_functional t a b a' b' :
  In (t, (a, b)) FIGURATE_QUADRATIC_PARAMETERS ->
  In (t, (a', b')) FIGURATE_QUADRATIC_PARAMETERS ->
  a = a' /\ b = b'.
Proof.
  cbn [In FIGURATE_QUADRATIC_PARAMETERS].
  intros H H'.
  repeat (destruct H as [H|H]; [injection H as <- <- <-|]); try contradiction;
    repeat (destruct H' as [H'|H']; [try discriminate H'|]); try contradiction;
    injection H' as <- <-; split; reflexivity.
Qed.

Lemma parameter_types t a b :
  In (t, (a, b)) FIGURATE_QUADRATIC_PARAMETERS -> t ∈ all_types.
Proof.
  cbn [In FIGURATE_QUADRATIC_PARAMETERS]. intros Hin.
  repeat (destruct Hin as [Hin|Hin]; [injection Hin as <- _ _|]);
    try contradiction;
    apply (proj1 (bool_decide_eq_true (_ ∈ all_types))); vm_compute; reflexivity.
Qed.

Lemma generated_built : built generated.
Proof.
  split; [apply generated_well_formed | apply generated_lookup].
Qed.

Lemma built_contents f t key c :
  built f ->
  c ∈ bucket f t key <-> Generated c /\ t = fn_type c /\ key = first2 c.
Proof.
  intros [Hdom Hf]. unfold bucket. split.
  - destruct (Hf t) as [E|(a & b & d & Hin & Hg & E)]; rewrite E;
      [set_solver|].
    intros Hc. apply (generate_type_contents _ _ _ _ Hg) in Hc as (Ht & Hn & Hv & Hk).
    subst t. split; [|split; [reflexivity | exact Hk]].
    exists a, b. split; [exact Hin|]. split; assumption.
  - intros ((a & b & Hin & Hn & Hv) & -> & ->).
    destruct (Hf (fn_type c)) as [E|(a' & b' & d & Hin' & Hg & E)].
    + exfalso. apply (not_elem_of_dom (D:=gset Z)) in E. apply E. rewrite Hdom.
      eapply parameter_types, Hin.
    + rewrite E. destruct (parameters_functional _ _ _ _ _ Hin Hin') as [<- <-].
      apply (generate_type_contents _ _ _ _ Hg). repeat split; assumption.
Qed.

Lemma built_nonempty f t key :
  built f -> key_present f t key = true -> bucket f t key <> ∅.
Proof.
  intros [_ Hf]. unfold key_present, bucket.
  destruct (Hf t) as [E|(a & b & d & Hin & Hg & E)]; rewrite E;
    [discriminate|].
  pose proof (generate_type_nonempty _ _ _ _ key Hg) as Hne.
  destruct (d !! key) as [s|]; [|discriminate]. intros _ Hs. apply Hne.
  simpl in Hs. rewrite Hs. reflexivity.
Qed.

(** X4: the index the generator builds holds a tuple in the bucket of
    type [t] under [key] exactly when the tuple is one the loops
    produce, [t] is its type and [key] the first two characters of its
    value: nothing else is stored, and nothing is stored elsewhere. *)
Theorem index_holds_exactly_generated t key c :
  c ∈ bucket generated t key <->
  Generated c /\ t = fn_type c /\ key = first2 c.
Proof. apply built_contents, generated_built. Qed.

(** X5: the generator leaves no empty bucket: a prefix that is a key of
    the dictionary of a type has a number of that type under it.  *)
Theorem generated_bucket_not_empty t key :
  key_present generated t key = true -> bucket generated t key <> ∅.
Proof. apply built_nonempty, generated_built. Qed.

Lemma generated_bucket_not_empty_witness : bucket generated 8 "12" <> ∅.
Proof.
  apply (generated_bucket_not_empty 8 "12"). vm_compute. reflexivity.
Defined.

Lemma iterated_range t a b n :
  In (t, (a, b)) FIGURATE_QUADRATIC_PARAMETERS ->
  iterated a b n <-> (index_range t).1 <= n < (index_range t).2.
Proof.
  intros Hin. unfold iterated. split.
  - intros (lo & hi & Hlo & Hhi & Hn). revert Hlo Hhi.
    cbn [In FIGURATE_QUADRATIC_PARAMETERS] in Hin.
    repeat (destruct Hin as [Hin|Hin]; [injection Hin as <- <- <-|]);
      try contradiction;
      vm_compute quadratic_lower_limit; vm_compute quadratic_upper_limit;
      intros [= <-] [= <-]; exact Hn.
  - intros Hn. exists (index_range t).1, (index_range t).2.
    split; [|split; [|exact Hn]]; clear Hn;
      cbn [In FIGURATE_QUADRATIC_PARAMETERS] in Hin;
      repeat (destruct Hin as [Hin|Hin]; [injection Hin as <- <- <-|]);
      try contradiction; vm_compute; reflexivity.
Qed.

Lemma generated_value c :
  Generated c ->
  fn_value c = P (fn_type c) (fn_index c) /\
  (index_range (fn_type c)).1 <= fn_index c < (index_range (fn_type c)).2 /\
  fn_type c ∈ all_types.
Proof.
  intros (a & b & Hin & Hn & Hv).
  pose proof (value_okb_iterated _ _ _ _ Hin Hn) as H. unfold value_okb in H.
  rewrite Hv in H. apply andb_prop in H as [H _]. apply Z.eqb_eq in H.
  split; [exact H|]. split; [apply (iterated_range _ _ _ _ Hin), Hn|].
  eapply parameter_types, Hin.
Qed.

Lemma all_types_cases t :
  t ∈ all_types <-> t = 3 \/ t = 4 \/ t = 5 \/ t = 6 \/ t = 7 \/ t = 8.
Proof.
  unfold all_types, range. rewrite elem_of_list_to_set, elem_of_seqZ. lia.
Qed.

(** X6: every stored tuple [(v, t, n)] has [v = P[t,n]] with [n >= 1]
    and [1000 <= v <= 10000]; the upper end is reached by the square
    [(10000, 4, 100)] and by no other tuple. *)
Theorem stored_values_in_range t key c :
  c ∈ bucket generated t key ->
  fn_value c = P t (fn_index c) /\ 1 <= fn_index c /\
  1000 <= fn_value c <= 10000 /\
  (fn_value c = 10000 -> c = (10000, 4, 100)).
Proof.
  intros Hc. apply (built_contents _ _ _ _ generated_built) in Hc as (Hg & -> & _).
  apply generated_value in Hg as (Hv & Hn & Ht).
  destruct c as [[v t] n]. cbn [fn_value fn_type fn_index fst snd] in *.
  apply all_types_cases in Ht.
  destruct Ht as [-> | [-> | [-> | [-> | [-> | ->]]]]];
    cbn [index_range fst snd P] in *; subst v.
  - repeat split; try nia.
    + apply Z.div_le_lower_bound; nia.
    + apply Z.div_le_upper_bound; nia.
    + intros H. exfalso. assert (n * (n + 1) / 2 < 10000); [|lia].
      apply Z.div_lt_upper_bound; nia.
  - repeat split; try nia. intros H. assert (n = 100) as -> by nia. reflexivity.
  - repeat split; try nia.
    + apply Z.div_le_lower_bound; nia.
    + apply Z.div_le_upper_bound; nia.
    + intros H. exfalso. assert (n * (3 * n - 1) / 2 < 10000); [|lia].
      apply Z.div_lt_upper_bound; nia.
  - repeat split; try nia.
  - repeat split; try nia.
    + apply Z.div_le_lower_bound; nia.
    + apply Z.div_le_upper_bound; nia.
    + intros H. exfalso. assert (n * (5 * n - 3) / 2 < 10000); [|lia].
      apply Z.div_lt_upper_bound; nia.
  - repeat split; try nia.
Qed.

Lemma stored_values_in_range_witness :
  fn_value (1281, 8, 21) = P 8 (fn_index (1281, 8, 21)) /\
  1 <= fn_index (1281, 8, 21) /\
  1000 <= fn_value (1281, 8, 21) <= 10000 /\
  (fn_value (1281, 8, 21) = 10000 -> (1281, 8, 21) = (10000, 4, 100)).
Proof.
  apply (stored_values_in_range 8 "12" (1281, 8, 21)).
  apply (proj1 (bool_decide_eq_true (_ ∈ bucket generated 8 "12"))).
  vm_compute. reflexivity.
Defined.

Lemma four_digit_stored t n :
  t ∈ all_types -> 1 <= n -> 1000 <= P t n <= 9999 ->
  (P t n, t, n) ∈ bucket generated t (first2 (P t n, t, n)).
Proof.
  intros Ht Hn Hv.
  assert ((index_range t).1 <= n < (index_range t).2) as Hr.
  { apply all_types_cases in Ht.
    destruct Ht as [-> | [-> | [-> | [-> | [-> | ->]]]]]; cbn [index_range fst snd P] in *.
    - destruct (Z_lt_le_dec n 45); [exfalso|]; destruct (Z_lt_le_dec n 141);
        try lia.
      + assert (n * (n + 1) / 2 < 1000); [apply Z.div_lt_upper_bound; nia|lia].
      + assert (10000 <= n * (n + 1) / 2); [apply Z.div_le_lower_bound; nia|lia].
    - nia.
    - destruct (Z_lt_le_dec n 26); [exfalso|]; destruct (Z_lt_le_dec n 82);
        try lia.
      + assert (n * (3 * n - 1) / 2 < 1000); [apply Z.div_lt_upper_bound; nia|lia].
      + assert (10000 <= n * (3 * n - 1) / 2); [apply Z.div_le_lower_bound; nia|lia].
    - nia.
    - destruct (Z_lt_le_dec n 21); [exfalso|]; destruct (Z_lt_le_dec n 64);
        try lia.
      + assert (n * (5 * n - 3) / 2 < 1000); [apply Z.div_lt_upper_bound; nia|lia].
      + assert (10000 <= n * (5 * n - 3) / 2); [apply Z.div_le_lower_bound; nia|lia].
    - nia. }
  assert (exists a b, In (t, (a, b)) FIGURATE_QUADRATIC_PARAMETERS) as (a & b & Hin).
  { apply all_types_cases in Ht. cbn [In FIGURATE_QUADRATIC_PARAMETERS].
    destruct Ht as [-> | [-> | [-> | [-> | [-> | ->]]]]]; eauto 12. }
  apply (built_contents _ _ _ _ generated_built).
  split; [|split; reflexivity].
  exists a, b. cbn [fn_type fn_index fn_value fst snd].
  assert (iterated a b n) as Hit by (apply (iterated_range _ _ _ _ Hin), Hr).
  split; [exact Hin|]. split; [exact Hit|].
  pose proof (value_okb_iterated _ _ _ _ Hin Hit) as H. unfold value_okb in H.
  destruct (figurate_value a b n) as [v|]; [|discriminate].
  apply andb_prop in H as [H _]. apply Z.eqb_eq in H. rewrite H. reflexivity.
Qed.

(** X7: no four-digit figurate number is missed: for each of the six
    types and every [n >= 1] with [1000 <= P[t,n] <= 9999], the tuple
    [(P[t,n], t, n)] is in the bucket of its type under its prefix. *)
Theorem four_digit_numbers_stored t n :
  t ∈ all_types -> 1 <= n -> 1000 <= P t n <= 9999 ->
  (P t n, t, n) ∈ bucket generated t (first2 (P t n, t, n)).
Proof. apply four_digit_stored. Qed.

Lemma four_digit_numbers_stored_witness :
  (P 8 21, 8, 21) ∈ bucket generated 8 (first2 (P 8 21, 8, 21)).
Proof.
  apply (four_digit_numbers_stored 8 21).
  - apply all_types_cases. lia.
  - lia.
  - vm_compute. split; discriminate.
Defined.

(** * Further properties: the search *)

Lemma stored_own_bucket f t k c :
  well_formed_index f -> c ∈ bucket f t k -> t = fn_type c /\ k = first2 c.
Proof.
  intros Hwf Hc. apply elem_of_bucket in Hc as (d & s & Ht & Hk & Hc).
  destruct (wf_types _ Hwf _ _ _ _ _ Ht Hk Hc) as [<- <-]. split; reflexivity.
Qed.

Lemma pool_follows f seq t c :
  well_formed_index f -> c ∈ pool f seq t ->
  c ∈ bucket f (fn_type c) (first2 c) /\
  (seq <> [] -> follows (last seq) c).
Proof.
  intros Hwf. unfold pool. destruct (last seq) as [p|] eqn:El.
  - intros Hc. destruct (stored_own_bucket _ _ _ _ Hwf Hc) as [-> Hk].
    split; [rewrite <- Hk; exact Hc | intros _; exact Hk].
  - intros Hc. apply elem_of_all_of_type in Hc as [k Hc].
    destruct (stored_own_bucket _ _ _ _ Hwf Hc) as [-> ->].
    split; [exact Hc|]. intros Hne. apply last_None in El. contradiction.
Qed.

(** A reachable accepted sequence continues the partial one by a chain
    of stored numbers of types that were left. *)
Lemma Completes_ext f seq rem full :
  well_formed_index f -> Inv seq rem -> Completes f seq rem full ->
  exists ext,
    full = seq ++ ext /\ length full = size f /\ cyclicb full = true /\
    NoDup (fn_type <$> ext) /\
    (forall x, x ∈ ext -> fn_type x ∈ rem) /\
    (forall x, x ∈ ext -> x ∈ bucket f (fn_type x) (first2 x)) /\
    chain (last seq) ext.
Proof.
  intros Hwf HInv HC. induction HC as [seq rem Hlen Hcyc | seq rem t c full Hlen Ht Hc HC IH].
  - exists []. rewrite app_nil_r. repeat split; try assumption.
    + constructor.
    + intros x Hx. apply elem_of_nil in Hx. destruct Hx.
    + intros x Hx. apply elem_of_nil in Hx. destruct Hx.
  - assert (Htr : t ∈ rem) by (eapply types_for_rem; eassumption).
    assert (Hct : fn_type c = t) by (eapply pool_type; eassumption).
    destruct (IH (Inv_step _ _ _ _ HInv Htr Hct))
      as (ext & -> & Hl & Hcyc & Hnd & Hty & Hst & Hch).
    exists (c :: ext). rewrite <- app_assoc. cbn [app].
    rewrite <- app_assoc in Hl, Hcyc. cbn [app] in Hl, Hcyc.
    rewrite last_snoc in Hch.
    destruct (pool_follows f seq t c Hwf Hc) as [Hcs Hcf].
    repeat split; try assumption.
    + cbn [fmap list_fmap]. constructor; [|exact Hnd].
      intros Hin. apply list_elem_of_fmap in Hin as (x & Hx1 & Hx2).
      specialize (Hty x Hx2). rewrite <- Hx1, Hct in Hty. set_solver.
    + intros x Hx. apply elem_of_cons in Hx as [->|Hx]; [rewrite Hct; exact Htr|].
      specialize (Hty x Hx). set_solver.
    + intros x Hx. apply elem_of_cons in Hx as [->|Hx]; [exact Hcs | apply Hst, Hx].
    + destruct seq as [|c0 l].
      * cbn [last follows]. cbn [types_for] in Ht.
        apply elem_of_singleton in Ht. rewrite Hct. exact Ht.
      * apply Hcf. discriminate.
Qed.

Lemma ext_Completes f ext : forall seq rem,
  length (seq ++ ext) = size f -> cyclicb (seq ++ ext) = true ->
  NoDup (fn_type <$> ext) ->
  (forall x, x ∈ ext -> fn_type x ∈ rem) ->
  (forall x, x ∈ ext -> x ∈ bucket f (fn_type x) (first2 x)) ->
  chain (last seq) ext ->
  Completes f seq rem (seq ++ ext).
Proof.
  induction ext as [|c ext IH]; intros seq rem Hlen Hcyc Hnd Hty Hst Hch.
  - rewrite app_nil_r in *. apply Completes_done; assumption.
  - destruct Hch as [Hf Hch]. cbn [fmap list_fmap] in Hnd.
    apply NoDup_cons in Hnd as [Hc Hnd].
    assert (Hcs := Hst c (list_elem_of_here _ _)).
    apply (Completes_step f seq rem (fn_type c) c).
    + rewrite length_app in Hlen. cbn [length] in Hlen. lia.
    + destruct seq as [|c0 l].
      * cbn [last follows] in Hf. cbn [types_for]. rewrite Hf.
        apply elem_of_singleton. reflexivity.
      * cbn [types_for]. apply Hty, list_elem_of_here.
    + unfold pool. destruct (last seq) as [p|].
      * cbn [follows] in Hf. rewrite Hf. exact Hcs.
      * apply elem_of_all_of_type. eauto.
    + replace (seq ++ c :: ext) with ((seq ++ [c]) ++ ext)
        by (rewrite <- app_assoc; reflexivity).
      apply IH.
      * rewrite <- app_assoc. exact Hlen.
      * rewrite <- app_assoc. exact Hcyc.
      * exact Hnd.
      * intros x Hx. apply elem_of_difference. split.
        -- apply Hty, list_elem_of_further, Hx.
        -- intros Heq. apply elem_of_singleton in Heq. apply Hc.
           rewrite <- Heq. apply list_elem_of_fmap. eauto.
      * intros x Hx. apply Hst, list_elem_of_further, Hx.
      * rewrite last_snoc. exact Hch.
Qed.

Lemma Completes_cyclic_sequence f full :
  well_formed_index f ->
  Completes f [] all_types full <-> cyclic_sequence f full.
Proof.
  intros Hwf. split.
  - intros HC.
    destruct (Completes_ext _ _ _ _ Hwf Inv_initial HC)
      as (ext & -> & Hl & Hcyc & Hnd & Hty & Hst & Hch).
    cbn [app] in *. repeat split; assumption.
  - intros (Hl & Hnd & Hst & Hch & Hcyc).
    apply (ext_Completes f full [] all_types); try assumption.
    intros x Hx. specialize (Hst x Hx).
    apply elem_of_bucket in Hst as (d & s & Ht & _).
    rewrite <- (wf_dom _ Hwf). apply elem_of_dom. eauto.
Qed.








Lemma root_types iter_types st :
  enumerates iter_types -> iter_types st {[ 8 ]} = [8].
Proof.
  intros H. specialize (H st {[ 8 ]}). rewrite elements_singleton in H.
  apply Permutation_singleton_r in H. exact H.
Qed.

Lemma search_root iter_types iter_choices depth f :
  enumerates iter_types -> f <> ∅ ->
  search_seqs iter_types iter_choices (S depth) (initial_state f) =
  for_t iter_choices (search_seqs iter_types iter_choices depth) [8]
    (observe AtEntry (initial_state f)).
Proof.
  intros Hen Hf. cbn [search_seqs].
  cbn [observe initial_state curr_seq figurate_numbers length].
  destruct (Nat.eqb_spec 0 (size f)) as [E|_].
  - exfalso. apply Hf. apply map_size_empty_iff. symmetry. exact E.
  - cbn [Nat.eqb]. rewrite (root_types _ _ Hen). reflexivity.
Qed.

(** X17: the search on an index it cannot use, for any iteration
    order: the empty index makes the closing test index an empty list
    ([IndexError]); an index without the octagonal type is a [KeyError];
    an octagonal dictionary with no bucket makes [set.union] fail for
    want of an argument ([TypeError]). *)
Theorem search_on_unusable_index iter_types iter_choices depth f :
  enumerates iter_types ->
  (f = ∅ ->
   search_seqs iter_types iter_choices (S depth) (initial_state f)
     = Raise IndexError) /\
  (f <> ∅ -> f !! 8 = None ->
   search_seqs iter_types iter_choices (S depth) (initial_state f)
     = Raise KeyError) /\
  (f !! 8 = Some ∅ ->
   search_seqs iter_types iter_choices (S depth) (initial_state f)
     = Raise TypeError).
Proof.
  intros Hen. split; [|split].
  - intros ->. reflexivity.
  - intros Hf H8. rewrite (search_root _ _ _ _ Hen Hf).
    cbn [for_t]. unfold get_choices, dict_getitem.
    cbn [observe initial_state figurate_numbers]. rewrite H8. reflexivity.
  - intros H8. rewrite (search_root _ _ _ _ Hen).
    + cbn [for_t]. unfold get_choices, dict_getitem.
      cbn [observe initial_state figurate_numbers curr_seq length Nat.eqb].
      rewrite H8. cbn [rbind]. unfold union_values. rewrite map_to_list_empty.
      reflexivity.
    + intros ->. rewrite lookup_empty in H8. discriminate.
Qed.

Lemma search_on_unusable_index_witness :
  search_seqs ascending in_elements_order 1 (initial_state ∅)
    = Raise IndexError /\
  search_seqs ascending in_elements_order 1 (initial_state {[ 3 := ∅ ]})
    = Raise KeyError /\
  search_seqs ascending in_elements_order 1 (initial_state {[ 8 := ∅ ]})
    = Raise TypeError.
Proof.
  split; [|split].
  - apply (proj1 (search_on_unusable_index ascending in_elements_order 0 ∅
                    ascending_enumerates)).
    reflexivity.
  - apply (proj1 (proj2 (search_on_unusable_index ascending in_elements_order 0
                           {[ 3 := ∅ ]} ascending_enumerates))).
    + apply map_non_empty_singleton.
    + apply lookup_singleton_ne. discriminate.
  - apply (proj2 (proj2 (search_on_unusable_index ascending in_elements_order 0
                           {[ 8 := ∅ ]} ascending_enumerates))).
    apply lookup_singleton_eq.
Defined.

Lemma cyclic_sequence_generated seq :
  cyclic_sequence generated seq <-> seq = answer.
Proof.
  rewrite <- (Completes_cyclic_sequence _ _ generated_well_formed).
  apply Completes_generated.
Qed.

(** X11: the index the generator builds holds exactly one cyclic
    sequence that starts with an octagonal number. *)
Theorem generated_has_one_cyclic_sequence seq :
  cyclic_sequence generated seq <-> seq = answer.
Proof. apply cyclic_sequence_generated. Qed.

Lemma four_digit_figurate_stored c :
  four_digit_figurate c -> c ∈ bucket generated (fn_type c) (first2 c).
Proof.
  destruct c as [[v t] n]. unfold four_digit_figurate.
  cbn [fn_type fn_index fn_value fst snd]. intros (Ht & Hn & -> & Hv).
  apply four_digit_stored; assumption.
Qed.

(** X12: the returned sequence is the only solution of the problem
    that starts with its octagonal number: any six four-digit figurate
    numbers [(P[t,n], t, n)] of pairwise different types, the first
    octagonal, each starting as its predecessor ends and the first as
    the last ends, are the sequence [answer]. *)
Theorem answer_is_the_only_solution seq :
  length seq = 6%nat -> NoDup (fn_type <$> seq) ->
  Forall four_digit_figurate seq -> chain None seq -> cyclicb seq = true ->
  seq = answer.
Proof.
  intros Hl Hnd Hall Hch Hcyc. apply cyclic_sequence_generated.
  unfold cyclic_sequence. rewrite size_generated. repeat split; try assumption.
  intros x Hx. apply four_digit_figurate_stored.
  rewrite Forall_forall in Hall. apply Hall, Hx.
Qed.

Lemma answer_is_a_solution :
  length answer = 6%nat /\ NoDup (fn_type <$> answer) /\
  Forall four_digit_figurate answer /\ chain None answer /\
  cyclicb answer = true.
Proof.
  split; [reflexivity|]. split.
  { apply (proj1 (bool_decide_eq_true (NoDup (fn_type <$> answer)))).
    vm_compute. reflexivity. }
  split.
  { unfold answer, four_digit_figurate.
    repeat (apply Forall_cons; split;
      [cbn [fn_type fn_index fn_value fst snd];
       split; [apply all_types_cases; lia|]; split; [lia|];
       split; [vm_compute; reflexivity | lia]|]).
    apply Forall_nil_2. }
  split; [vm_compute; repeat split; reflexivity | vm_compute; reflexivity].
Qed.

Lemma answer_is_the_only_solution_witness :
  (length answer = 6%nat /\ NoDup (fn_type <$> answer) /\
   Forall four_digit_figurate answer /\ chain None answer /\
   cyclicb answer = true) /\
  answer = answer.
Proof.
  split; [exact answer_is_a_solution|].
  destruct answer_is_a_solution as (H1 & H2 & H3 & H4 & H5).
  apply (answer_is_the_only_solution answer); assumption.
Defined.

(** * Further properties: the printed report and the string tests *)

Lemma all_types_bounds t : t ∈ all_types <-> 3 <= t <= 8.
Proof. rewrite all_types_cases. lia. Qed.

Lemma format_line_labelled c : labelled c -> exists line, format_line c = Ok line.
Proof.
  unfold labelled, format_line. intros H. apply all_types_cases in H.
  destruct H as [-> | [-> | [-> | [-> | [-> | ->]]]]]; cbn [assoc_getitem FIGURATE_LABELS Z.eqb Pos.eqb rbind]; eauto.
Qed.

Lemma format_line_unlabelled c : ~ labelled c -> format_line c = Raise KeyError.
Proof.
  unfold labelled, format_line. rewrite all_types_bounds. intros H.
  cbn [assoc_getitem FIGURATE_LABELS].
  repeat match goal with
  | |- context [?k =? fn_type c] =>
      replace (k =? fn_type c) with false by (symmetry; apply Z.eqb_neq; lia)
  end.
  reflexivity.
Qed.

Lemma print_numbers_all seq : forall out,
  Forall labelled seq ->
  exists lines,
    Forall2 printed_as seq lines /\ print_numbers seq out = (out ++ lines, None).
Proof.
  induction seq as [|c seq IH]; intros out Hall.
  - exists []. rewrite app_nil_r. split; [constructor | reflexivity].
  - apply Forall_cons in Hall as [Hc Hall].
    destruct (format_line_labelled c Hc) as [line E].
    destruct (IH (out ++ [line]) Hall) as (lines & Hl & Hp).
    exists (line :: lines). split; [constructor; assumption|].
    cbn [print_numbers]. rewrite E, Hp, <- app_assoc. reflexivity.
Qed.

Lemma print_numbers_stops pre c post : forall out,
  Forall labelled pre -> ~ labelled c ->
  exists lines,
    Forall2 printed_as pre lines /\
    print_numbers (pre ++ c :: post) out = (out ++ lines, Some KeyError).
Proof.
  induction pre as [|c0 pre IH]; intros out Hall Hc.
  - exists []. rewrite app_nil_r. split; [constructor|].
    cbn [app print_numbers]. rewrite (format_line_unlabelled c Hc). reflexivity.
  - apply Forall_cons in Hall as [Hc0 Hall].
    destruct (format_line_labelled c0 Hc0) as [line E].
    destruct (IH (out ++ [line]) Hall Hc) as (lines & Hl & Hp).
    exists (line :: lines). split; [constructor; assumption|].
    cbn [app print_numbers]. rewrite E, Hp, <- app_assoc. reflexivity.
Qed.

(** X13: for a sequence whose types all have a label, the block prints
    the heading, one line per number in order, the sum heading and the
    sum, and ends without exception. *)
Theorem report_prints_every_number seq :
  Forall labelled seq ->
  exists lines,
    Forall2 printed_as seq lines /\
    report (Ok seq) =
      (heading :: lines ++
         ["Sum of those numbers:"; "  " ++ PyNum.str (sum_values seq)]%string,
       None).
Proof.
  intros Hall. destruct (print_numbers_all seq [heading] Hall) as (lines & Hl & Hp).
  exists lines. split; [exact Hl|]. unfold report. fold heading. rewrite Hp.
  reflexivity.
Qed.

Lemma report_prints_every_number_witness :
  exists lines,
    Forall2 printed_as [(1281, 8, 21); (8128, 6, 64)] lines /\
    report (Ok [(1281, 8, 21); (8128, 6, 64)]) =
      (heading :: lines ++
         ["Sum of those numbers:";
          "  " ++ PyNum.str (sum_values [(1281, 8, 21); (8128, 6, 64)])]%string,
       None).
Proof.
  apply (report_prints_every_number [(1281, 8, 21); (8128, 6, 64)]).
  apply Forall_cons. split; [apply all_types_cases; cbn; lia|].
  apply Forall_cons. split; [apply all_types_cases; cbn; lia|].
  apply Forall_nil_2.
Defined.

(** X14: at the first number whose type has no label the block ends
    with a [KeyError], having printed the heading and the lines of the
    numbers before it; the sum is not printed. *)
Theorem report_stops_at_unlabelled pre c post :
  Forall labelled pre -> ~ labelled c ->
  exists lines,
    Forall2 printed_as pre lines /\
    report (Ok (pre ++ c :: post)) = (heading :: lines, Some KeyError).
Proof.
  intros Hall Hc.
  destruct (print_numbers_stops pre c post [heading] Hall Hc) as (lines & Hl & Hp).
  exists lines. split; [exact Hl|]. unfold report. fold heading. rewrite Hp.
  reflexivity.
Qed.

Lemma report_stops_at_unlabelled_witness :
  exists lines,
    Forall2 printed_as [(1281, 8, 21)] lines /\
    report (Ok ([(1281, 8, 21)] ++ (1540, 9, 20) :: [(8128, 6, 64)]))
      = (heading :: lines, Some KeyError).
Proof.
  apply (report_stops_at_unlabelled [(1281, 8, 21)] (1540, 9, 20) [(8128, 6, 64)]).
  - apply Forall_cons. split; [apply all_types_cases; cbn; lia|].
    apply Forall_nil_2.
  - unfold labelled. rewrite all_types_bounds. cbn. lia.
Defined.

Lemma four_digit_prefix_checked :
  forallb (fun v => String.eqb (first2 (v, 0, 0)) (two_digits (v / 100)))
          (range 1000 10000) = true.
Proof. vm_compute. reflexivity. Qed.

Lemma first2_four_digits c :
  1000 <= fn_value c <= 9999 -> first2 c = two_digits (fn_value c / 100).
Proof.
  intros Hv. pose proof four_digit_prefix_checked as H.
  rewrite forallb_forall in H. specialize (H (fn_value c)).
  apply String.eqb_eq. apply H.
  apply list_elem_of_In, elem_of_seqZ. lia.
Qed.

Lemma two_digits_checked :
  forallb (fun a => forallb (fun b =>
             implb (String.eqb (two_digits a) (two_digits b)) (a =? b))
           (range 0 100)) (range 0 100) = true.
Proof. vm_compute. reflexivity. Qed.

Lemma two_digits_inj a b :
  0 <= a < 100 -> 0 <= b < 100 -> two_digits a = two_digits b -> a = b.
Proof.
  intros Ha Hb E. pose proof two_digits_checked as H.
  rewrite forallb_forall in H.
  assert (Ha' : In a (range 0 100)) by (apply list_elem_of_In, elem_of_seqZ; lia).
  specialize (H a Ha'). rewrite forallb_forall in H.
  assert (Hb' : In b (range 0 100)) by (apply list_elem_of_In, elem_of_seqZ; lia).
  specialize (H b Hb'). rewrite E, String.eqb_refl in H. cbn [implb] in H.
  apply Z.eqb_eq, H.
Qed.

(** X15: between four-digit values the string test of the search,
    [str(x)[2:] == str(y)[:2]], holds exactly when the last two decimal
    digits of [x] are the first two of [y]. *)
Theorem string_test_is_digit_test x y :
  1000 <= fn_value x <= 9999 -> 1000 <= fn_value y <= 9999 ->
  last2 x = first2 y <-> fn_value x mod 100 = fn_value y / 100.
Proof.
  intros Hx Hy. rewrite (last2_four_digits x Hx), (first2_four_digits y Hy).
  split; [|intros ->; reflexivity].
  apply two_digits_inj.
  - apply Z.mod_pos_bound. lia.
  - split; [apply Z.div_pos; lia | apply Z.div_lt_upper_bound; lia].
Qed.

Lemma string_test_is_digit_test_witness :
  last2 (1281, 8, 21) = first2 (8128, 6, 64) <->
  fn_value (1281, 8, 21) mod 100 = fn_value (8128, 6, 64) / 100.
Proof.
  apply (string_test_is_digit_test (1281, 8, 21) (8128, 6, 64)); cbn; lia.
Defined.

Lemma slice_to_length n s : (String.length (PyNum.slice_to n s) <= n)%nat.
Proof.
  revert s. induction n as [|n IH]; intros [|c s]; cbn; try lia.
  specialize (IH s). lia.
Qed.

Lemma ten_thousand_not_followed c y :
  fn_value c = 10000 -> last2 c <> first2 y.
Proof.
  intros Hc E. pose proof (slice_to_length 2 (PyNum.str (fn_value y))) as H.
  fold (first2 y) in H. rewrite <- E in H. unfold last2 in H. rewrite Hc in H.
  vm_compute in H. lia.
Qed.

Lemma chain_next p l c :
  chain p l -> c ∈ l -> last l = Some c \/ exists y, y ∈ l /\ last2 c = first2 y.
Proof.
  revert p. induction l as [|c0 l IH]; intros p Hch Hc.
  - apply elem_of_nil in Hc. destruct Hc.
  - destruct Hch as [_ Hch]. apply elem_of_cons in Hc as [->|Hc].
    + destruct l as [|y l]; [left; reflexivity|].
      right. exists y. destruct Hch as [Hf _]. split; [|exact Hf].
      apply list_elem_of_further, list_elem_of_here.
    + destruct (IH _ Hch Hc) as [Hl|(y & Hy & E)].
      * left. destruct l as [|y l]; [discriminate | exact Hl].
      * right. exists y. split; [apply list_elem_of_further, Hy | exact E].
Qed.

(** X16: the value 10000, which the generator lets in, takes part in no
    cyclic sequence of any index: its last characters are ['000'], which
    no two-character prefix equals. *)
Theorem ten_thousand_in_no_cycle f seq c :
  cyclic_sequence f seq -> c ∈ seq -> fn_value c <> 10000.
Proof.
  intros (_ & _ & _ & Hch & Hcyc) Hc Hv.
  destruct (chain_next _ _ _ Hch Hc) as [Hl|(y & _ & E)].
  - unfold cyclicb in Hcyc. rewrite Hl in Hcyc.
    destruct (head seq) as [h|]; [|discriminate].
    apply String.eqb_eq in Hcyc. exact (ten_thousand_not_followed c h Hv Hcyc).
  - exact (ten_thousand_not_followed c y Hv E).
Qed.

Lemma ten_thousand_in_no_cycle_witness : fn_value (1281, 8, 21) <> 10000.
Proof.
  apply (ten_thousand_in_no_cycle generated answer (1281, 8, 21)).
  - apply cyclic_sequence_generated. reflexivity.
  - apply list_elem_of_here.
Defined.
